(** * Financial metrics of [app.py]: VPL, TIR and discounted payback

    The three helper functions of [app.py] ([calcular_vpl], [calcular_tir],
    [calcular_payback_descontado]) are embedded as executable functions.

    Numbers.  A Python number is modelled as a canonical rational [Qc]:
    every finite float is a rational, and [Qc] has one representative per
    value, so [=] is Python's [==].  Arithmetic is exact: rounding, overflow
    and underflow of binary64 are not part of this model.  The decimal
    literals of the source ([0.1], [1e-6], [1e-10], [-0.99]) stand for the
    decimal fractions they denote.

    What the exact model can and cannot say.  It gives the value a call
    computes up to the rounding of binary64.  It does not decide whether a
    call returns: where [(1 + tma) ** t] overflows Python raises
    [OverflowError], where it underflows to [0.0] the division raises
    [ZeroDivisionError], and a rounded Newton iterate can land beside -1
    where the exact one lands on it.  Module [F64] below gives the binary64
    reading of [calcular_vpl], on Rocq's primitive floats, for the inputs
    where the two readings part.

    Errors.  Python's [/] raises [ZeroDivisionError] on a zero divisor; this
    is the only exception the three functions can raise on a list of numbers,
    and it is modelled by the [outcome] type below. *)

From Stdlib Require Import List Bool Arith ZArith Lia.
From Stdlib Require Import QArith Qabs Qcanon Qcabs Lqa.
From Stdlib Require Floats.
Import ListNotations.

Local Open Scope Qc_scope.

(** ** Python values and errors *)

Module Py.

Inductive exn : Set := ZeroDivisionError.

Inductive outcome (A : Type) : Type :=
| Ret (a : A)
| Raise (e : exn).

Arguments Ret {A} a.
Arguments Raise {A} e.

Definition bind {A B : Type} (c : outcome A) (k : A -> outcome B) : outcome B :=
  match c with
  | Ret a => k a
  | Raise e => Raise e
  end.

(** Comparisons of numbers, as booleans. *)
Definition ltb (a b : Qc) : bool :=
  match a ?= b with Lt => true | _ => false end.

Definition geb (a b : Qc) : bool :=
  match a ?= b with Lt => false | _ => true end.

Definition eqb (a b : Qc) : bool :=
  match a ?= b with Eq => true | _ => false end.

(** [a / b]: raises on a zero divisor, whatever the dividend. *)
Definition div (a b : Qc) : outcome Qc :=
  if eqb b 0 then Raise ZeroDivisionError else Ret (a / b).

(** An [int] used in float arithmetic. *)
Definition of_nat (n : nat) : Qc := Q2Qc (inject_Z (Z.of_nat n)).

(** [enumerate(l)], and [enumerate(l, start)]. *)
Fixpoint enumerate_from {A : Type} (start : nat) (l : list A) : list (nat * A) :=
  match l with
  | [] => []
  | x :: xs => (start, x) :: enumerate_from (S start) xs
  end.

Definition enumerate {A : Type} (l : list A) : list (nat * A) :=
  enumerate_from 0 l.

(** A list comprehension [[f x for x in l]] whose element expression may
    raise: elements are evaluated left to right and the first error wins. *)
Fixpoint comprehension {A B : Type} (f : A -> outcome B) (l : list A)
  : outcome (list B) :=
  match l with
  | [] => Ret []
  | x :: xs =>
      bind (f x) (fun y =>
      bind (comprehension f xs) (fun ys =>
      Ret (y :: ys)))
  end.

(** [sum(l)]: starts from [0] and adds from the left. *)
Definition sum (l : list Qc) : Qc := fold_left Qcplus l 0.

Definition sum_int (l : list Z) : Z := fold_left Z.add l 0%Z.

End Py.

Import Py.

Notation "x <- c ;; k" := (bind c (fun x => k))
  (at level 61, c at next level, right associativity).
Notation "' pat <- c ;; k" := (bind c (fun x => match x with pat => k end))
  (at level 61, pat pattern, c at next level, right associativity).

(** Decimal literal [n / d]. *)
Definition dec (n : Z) (d : positive) : Qc := Q2Qc (n # d).

(** ** [calcular_vpl] *)

(** [sum([fc / (1 + tma) ** t for t, fc in enumerate(fluxos_completos)])] *)
Definition calcular_vpl (fluxos_completos : list Qc) (tma : Qc) : outcome Qc :=
  termos <- comprehension
              (fun '(t, fc) => div fc ((1 + tma) ^ t))
              (enumerate fluxos_completos) ;;
  Ret (sum termos).

(** ** [calcular_tir] *)

Section Tir.

Variable fluxos : list Qc.
Variable tolerancia : Qc.

(** [sinais = [1 if f >= 0 else -1 for f in fluxos]] *)
Definition sinais : list Z :=
  map (fun f => if geb f 0 then 1%Z else (-1)%Z) fluxos.

(** [sum(sinais) == len(fluxos) or sum(sinais) == -len(fluxos)] *)
Definition mesmo_sinal : bool :=
  Z.eqb (sum_int sinais) (Z.of_nat (length fluxos))
  || Z.eqb (sum_int sinais) (- Z.of_nat (length fluxos)).

(** The inner function [vpl(taxa)].  (Exact reading: it raises at the rate
    -1 only; in binary64 it also raises where [(1 + taxa) ** t] overflows or
    underflows to zero.) *)
Definition vpl (taxa : Qc) : outcome Qc :=
  termos <- comprehension
              (fun '(t, f) => div f ((1 + taxa) ^ t))
              (enumerate fluxos) ;;
  Ret (sum termos).

(** The inner function [vpl_derivada(taxa)]:
    [sum([-t * f / (1 + taxa)**(t+1) for t, f in enumerate(fluxos) if t > 0])] *)
Definition vpl_derivada (taxa : Qc) : outcome Qc :=
  termos <- comprehension
              (fun '(t, f) => div (- of_nat t * f) ((1 + taxa) ^ (t + 1)))
              (filter (fun '(t, _) => Nat.ltb 0 t) (enumerate fluxos)) ;;
  Ret (sum termos).

(** How the Newton loop is left: by [return taxa * 100], or by falling out of
    it ([break], or [range(max_iter)] exhausted). *)
Inductive newton_exit : Type :=
| Return (r : Qc)
| FallThrough.

(** The first [for _ in range(max_iter)] loop, from the current [taxa].
    (Exact reading: the iterates are the exact Newton iterates; a rounded
    iterate can differ from them in the last digits.) *)
Fixpoint newton (iter : nat) (taxa : Qc) : outcome newton_exit :=
  match iter with
  | O => Ret FallThrough
  | S iter' =>
      v <- vpl taxa ;;
      if ltb [v] tolerancia then Ret (Return (taxa * dec 100 1))
      else
        derivada <- vpl_derivada taxa ;;
        if ltb [derivada] (dec 1 10000000000) then Ret FallThrough
        else
          q <- div v derivada ;;
          newton iter' (taxa - q)
  end.

(** The second [for _ in range(max_iter)] loop; the result is the final
    [(esquerda, direita)].  [2] is a literal, so [/ 2] cannot raise.  (Exact
    reading: the loop raises only if [vpl] does.) *)
Fixpoint bissecao (iter : nat) (esquerda direita : Qc) : outcome (Qc * Qc) :=
  match iter with
  | O => Ret (esquerda, direita)
  | S iter' =>
      if ltb (direita - esquerda) tolerancia then Ret (esquerda, direita)
      else
        let meio := (esquerda + direita) / dec 2 1 in
        ve <- vpl esquerda ;;
        vm <- vpl meio ;;
        if ltb (ve * vm) 0 then bissecao iter' esquerda meio
        else bissecao iter' meio direita
  end.

(** The body of [calcular_tir]; [None] is Python's [None]. *)
Definition calcular_tir_corpo (max_iter : nat) : outcome (option Qc) :=
  if mesmo_sinal then Ret None
  else
    saida <- newton max_iter (dec 1 10) ;;
    match saida with
    | Return r => Ret (Some r)
    | FallThrough =>
        '(esquerda, direita) <- bissecao max_iter (dec (-99) 100) 1 ;;
        let tir_calculada := (esquerda + direita) / dec 2 1 * dec 100 1 in
        vf <- vpl ((esquerda + direita) / dec 2 1) ;;
        if ltb [vf] tolerancia then Ret (Some tir_calculada) else Ret None
    end.

End Tir.

(** [calcular_tir(fluxos, max_iter, tolerancia)] *)
Definition calcular_tir (fluxos : list Qc) (max_iter : nat) (tolerancia : Qc)
  : outcome (option Qc) :=
  calcular_tir_corpo fluxos tolerancia max_iter.

(** The defaults [max_iter=1000, tolerancia=1e-6]. *)
Definition max_iter_padrao : nat := 1000.
Definition tolerancia_padrao : Qc := dec 1 1000000.

(** [calcular_tir(fluxos)] *)
Definition calcular_tir_padrao (fluxos : list Qc) : outcome (option Qc) :=
  calcular_tir fluxos max_iter_padrao tolerancia_padrao.

(** ** [calcular_payback_descontado] *)

(** The [for t, fc in enumerate(fluxos_completos)] loop, with the running
    [acumulado]. *)
Fixpoint payback_laco (tma : Qc) (acumulado : Qc) (pares : list (nat * Qc))
  : outcome (option Qc) :=
  match pares with
  | [] => Ret None
  | (t, fc) :: resto =>
      fluxo_desc <- div fc ((1 + tma) ^ t) ;;
      let acumulado := acumulado + fluxo_desc in
      if geb acumulado 0 then
        if Nat.eqb t 0 then Ret (Some 0)
        else
          let acumulado_sem_ano := acumulado - fluxo_desc in
          q <- div [acumulado_sem_ano] fluxo_desc ;;
          Ret (Some (of_nat (t - 1) + q))
      else payback_laco tma acumulado resto
  end.

Definition calcular_payback_descontado (fluxos_completos : list Qc) (tma : Qc)
  : outcome (option Qc) :=
  payback_laco tma 0 (enumerate fluxos_completos).

(** ** The benchmark project of the user interface's defaults *)

(** [[-100, 60, 60, 60]] *)
Definition projeto_base : list Qc := [dec (-100) 1; dec 60 1; dec 60 1; dec 60 1].

(** ** The discounted sum, as the specification words it *)

(** [somatorio n f] is the sum of [f t] for [t = 0 .. n-1]. *)
Fixpoint somatorio (n : nat) (f : nat -> Qc) : Qc :=
  match n with
  | O => 0
  | S k => somatorio k f + f k
  end.

(** Sum over the indices [t] of the series of [flows[t] / (1+rate)^t]. *)
Definition npv_spec (flows : list Qc) (rate : Qc) : Qc :=
  somatorio (length flows) (fun t => nth t flows 0 / (1 + rate) ^ t).

(** The discounted flows: the elements of the comprehension. *)
Definition fluxos_descontados (tma : Qc) (pares : list (nat * Qc)) : list Qc :=
  map (fun '(t, fc) => fc / (1 + tma) ^ t) pares.

(** ** The loop of [calcular_payback_descontado], in two steps *)

(** Where the loop of [calcular_payback_descontado] stops: it runs out of
    flows, it returns 0 at [t = 0], or it reaches the interpolation with the
    loop variables [t], [acumulado] and [fluxo_desc]. *)
Inductive payback_ponto : Type :=
| Esgotado
| Imediato
| Interpolacao (t : nat) (acumulado fluxo_desc : Qc).

(** The loop of [payback_laco] up to the point where it stops. *)
Fixpoint payback_busca (tma : Qc) (acumulado : Qc) (pares : list (nat * Qc))
  : outcome payback_ponto :=
  match pares with
  | [] => Ret Esgotado
  | (t, fc) :: resto =>
      fluxo_desc <- div fc ((1 + tma) ^ t) ;;
      let acumulado := acumulado + fluxo_desc in
      if geb acumulado 0 then
        if Nat.eqb t 0 then Ret Imediato
        else Ret (Interpolacao t acumulado fluxo_desc)
      else payback_busca tma acumulado resto
  end.

(** What [payback_laco] does at the point where it stops. *)
Definition payback_fim (p : payback_ponto) : outcome (option Qc) :=
  match p with
  | Esgotado => Ret None
  | Imediato => Ret (Some 0)
  | Interpolacao t acumulado fluxo_desc =>
      let acumulado_sem_ano := acumulado - fluxo_desc in
      q <- div [acumulado_sem_ano] fluxo_desc ;;
      Ret (Some (of_nat (t - 1) + q))
  end.


(** ** The binary64 reading of [calcular_vpl] *)

(** Python floats are IEEE 754 binary64 numbers, as Rocq's primitive floats
    are: [+], [*] and [/] round to nearest, and an overflowing result is an
    infinity. *)
Module F64.

Import PrimFloat.
Local Open Scope float_scope.

Inductive exn : Set := ZeroDivisionError | OverflowError.

Inductive outcome (A : Type) : Type :=
| Ret (a : A)
| Raise (e : exn).

Arguments Ret {A} a.
Arguments Raise {A} e.

Definition bind {A B : Type} (c : outcome A) (k : A -> outcome B) : outcome B :=
  match c with
  | Ret a => k a
  | Raise e => Raise e
  end.

(** [a / b]: raises on a zero divisor ([0.0] or [-0.0]); a quotient that
    overflows is an infinity, without error. *)
Definition div (a b : float) : outcome float :=
  if b =? 0 then Raise ZeroDivisionError else Ret (a / b).

(** The product of [t] factors [x], each step rounded. *)
Fixpoint produto (x : float) (t : nat) : float :=
  match t with
  | O => 1
  | S t' => x * produto x t'
  end.

(** [x ** t] for an [int] [t >= 0]: [1.0] at [t = 0]; otherwise C's [pow],
    and [OverflowError] when a finite [x] gives an infinite result; a result
    that underflows is [0.0], without error.  C's [pow] is taken as the
    rounded product, from which it can differ in the last digit; on the
    inputs used below every factor is a power of two, so that every product
    is exact until it leaves the range, and the two agree. *)
Definition pow (x : float) (t : nat) : outcome float :=
  match t with
  | O => Ret 1
  | S _ =>
      let p := produto x t in
      if is_finite x && is_infinity p then Raise OverflowError else Ret p
  end.

Fixpoint comprehension {A B : Type} (f : A -> outcome B) (l : list A)
  : outcome (list B) :=
  match l with
  | [] => Ret []
  | x :: xs =>
      bind (f x) (fun y =>
      bind (comprehension f xs) (fun ys =>
      Ret (y :: ys)))
  end.

(** [sum(l)]: from [0], adding from the left, each step rounded. *)
Definition sum (l : list float) : float := fold_left add l 0.

(** [sum([fc / (1 + tma) ** t for t, fc in enumerate(fluxos_completos)])] *)
Definition calcular_vpl (fluxos_completos : list float) (tma : float)
  : outcome float :=
  bind (comprehension
          (fun '(t, fc) => bind (pow (1 + tma) t) (fun p => div fc p))
          (Py.enumerate fluxos_completos))
       (fun termos => Ret (sum termos)).

(** The floats used below. *)
Definition zero : float := 0.
Definition um : float := 1.
Definition menos_um : float := -1.
Definition menos_cem : float := -100.
(** [2.0 ** 600] and [2.0 ** -1000] *)
Definition dois_600 : float := 0x1p+600.
Definition dois_menos_1000 : float := 0x1p-1000.
(** [-1 + 2.0 ** -30], a float: [1 + (-1 + 2.0 ** -30)] is [2.0 ** -30]. *)
Definition quase_menos_um : float := -1 + 0x1p-30.

End F64.

(** ** The script around the three functions *)

(** [fluxos_com_investimento = [investimento_inicial] + fluxos] *)
Definition fluxos_com_investimento (investimento_inicial : Qc) (fluxos : list Qc)
  : list Qc :=
  [investimento_inicial] ++ fluxos.

(** [vpl_base = calcular_vpl(fluxos_com_investimento, tma_base)] *)
Definition vpl_base (investimento_inicial tma_base : Qc) (fluxos : list Qc)
  : outcome Qc :=
  calcular_vpl (fluxos_com_investimento investimento_inicial fluxos) tma_base.

(** [tir = calcular_tir(fluxos_com_investimento) if investimento_inicial < 0
    else None] *)
Definition tir (investimento_inicial : Qc) (fluxos : list Qc)
  : outcome (option Qc) :=
  if ltb investimento_inicial 0
  then calcular_tir_padrao (fluxos_com_investimento investimento_inicial fluxos)
  else Ret None.

(** [payback = calcular_payback_descontado(fluxos_com_investimento, tma_base)] *)
Definition payback (investimento_inicial tma_base : Qc) (fluxos : list Qc)
  : outcome (option Qc) :=
  calcular_payback_descontado
    (fluxos_com_investimento investimento_inicial fluxos) tma_base.

(** Truth value of a number or [None] in a condition ([if payback], [if tir]):
    [None] and zero are false. *)
Definition truthy (x : option Qc) : bool :=
  match x with
  | None => false
  | Some v => negb (eqb v 0)
  end.

(** The text of the payback metric:
    [f"{payback:.2f} anos" if payback else "Não recuperado"].
    [Anos v] stands for the formatted number followed by "anos". *)
Inductive payback_texto : Type :=
| Anos (v : Qc)
| NaoRecuperado.

Definition payback_txt (payback : option Qc) : payback_texto :=
  if truthy payback then
    match payback with
    | Some v => Anos v
    | None => NaoRecuperado
    end
  else NaoRecuperado.

(** The two kinds of message box, [st.success] and [st.error]. *)
Inductive mensagem : Type :=
| Success
| Error.

(** [if vpl_base > 0: st.success(...) else: st.error(...)] *)
Definition interpretacao_vpl (vpl_base : Qc) : mensagem :=
  if ltb 0 vpl_base then Success else Error.


(** [[fluxos_com_investimento[0]] + [f * (1 + v) for f in fluxos]], the
    series of the flow sensitivity at the variation [v]. *)
Definition fluxos_variados (investimento_inicial : Qc) (fluxos : list Qc) (v : Qc)
  : list Qc :=
  [nth 0 (fluxos_com_investimento investimento_inicial fluxos) 0]
  ++ map (fun f => f * (1 + v)) fluxos.

(** [vpl_var = calcular_vpl(fluxos_var, tma_base)], with
    [fluxos_var] built at [variacao/100] for the integer [variacao]. *)
Definition vpl_var (investimento_inicial tma_base : Qc) (fluxos : list Qc)
    (variacao : Z) : outcome Qc :=
  calcular_vpl
    (fluxos_variados investimento_inicial fluxos (dec variacao 100)) tma_base.



(** The running discounted sum after the entry [j] of [l], when [l] starts at
    the period [k]: the sum for [i = 0 .. j] of [l[i] / (1+tma)^(k+i)]. *)
Definition parcial (tma : Qc) (k : nat) (l : list Qc) (j : nat) : Qc :=
  somatorio (S j) (fun i => nth i l 0 / (1 + tma) ^ (k + i)).

(** Where the search stops, in terms of the running sums. *)
Definition ponto_parcial (tma : Qc) (k : nat) (l : list Qc) (acumulado : Qc)
    (p : payback_ponto) : Prop :=
  match p with
  | Esgotado =>
      forall j, (j < length l)%nat -> acumulado + parcial tma k l j < 0
  | Imediato =>
      k = O /\ l <> [] /\ 0 <= acumulado + parcial tma k l 0
  | Interpolacao t a fd =>
      exists j,
        (j < length l)%nat /\ t = (k + j)%nat /\ t <> O
        /\ (forall j', (j' < j)%nat -> acumulado + parcial tma k l j' < 0)
        /\ a = acumulado + parcial tma k l j
        /\ 0 <= a
        /\ fd = nth j l 0 / (1 + tma) ^ (k + j)
  end.

(** * Properties *)

(** ** Comparisons and division *)

Lemma ltb_lt (a b : Qc) : ltb a b = true <-> a < b.
Proof.
  unfold ltb. rewrite Qclt_alt.
  destruct (a ?= b); split; congruence.
Qed.

Lemma ltb_ge (a b : Qc) : ltb a b = false <-> b <= a.
Proof.
  unfold ltb. rewrite (Qcge_alt a b).
  destruct (a ?= b); split; congruence.
Qed.

Lemma geb_ge (a b : Qc) : geb a b = true <-> b <= a.
Proof.
  unfold geb. rewrite (Qcge_alt a b).
  destruct (a ?= b); split; congruence.
Qed.

Lemma geb_lt (a b : Qc) : geb a b = false <-> a < b.
Proof.
  unfold geb. rewrite Qclt_alt.
  destruct (a ?= b); split; congruence.
Qed.

Lemma eqb_eq (a b : Qc) : eqb a b = true <-> a = b.
Proof.
  unfold eqb. rewrite Qceq_alt.
  destruct (a ?= b); split; congruence.
Qed.

Lemma div_ok (a b : Qc) : b <> 0 -> div a b = Ret (a / b).
Proof.
  intros Hb. unfold div.
  destruct (eqb b 0) eqn:E; [apply eqb_eq in E; contradiction | reflexivity].
Qed.

Lemma div_zero (a : Qc) : div a 0 = Raise ZeroDivisionError.
Proof. reflexivity. Qed.

(** ** From [Qc] to [Q], where linear arithmetic is decided *)

Lemma this_plus (x y : Qc) : (this (x + y) == this x + this y)%Q.
Proof. apply Qred_correct. Qed.

Lemma this_mult (x y : Qc) : (this (x * y) == this x * this y)%Q.
Proof. apply Qred_correct. Qed.

Lemma this_opp (x : Qc) : (this (- x) == - this x)%Q.
Proof. apply Qred_correct. Qed.

Lemma this_minus (x y : Qc) : (this (x - y) == this x - this y)%Q.
Proof. unfold Qcminus. rewrite this_plus, this_opp. reflexivity. Qed.

Lemma this_inv (x : Qc) : (this (/ x) == / this x)%Q.
Proof. apply Qred_correct. Qed.

Lemma this_dec (n : Z) (d : positive) : (this (dec n d) == n # d)%Q.
Proof. apply Qred_correct. Qed.

Lemma this_eq (x y : Qc) : x = y -> (this x == this y)%Q.
Proof. intros ->. reflexivity. Qed.

Ltac to_Q :=
  repeat match goal with
  | H : @eq Qc _ _ |- _ => apply this_eq in H
  | H : ~ @eq Qc _ _ |- _ =>
      let H' := fresh in
      assert (H' := fun E => H (Qc_is_canon _ _ E)); clear H
  | |- @eq Qc _ _ => apply Qc_is_canon
  | |- ~ @eq Qc _ _ => let E := fresh in intros E; apply this_eq in E; revert E
  end;
  unfold Qclt, Qcle, Qcdiv in *;
  repeat (rewrite ?this_plus, ?this_mult, ?this_opp, ?this_minus, ?this_inv,
            ?this_dec in *);
  change (this 0) with 0%Q in *; change (this 1) with 1%Q in *.

Ltac qc_lra := to_Q; lra.
Ltac qc_nra := to_Q; nra.

(** ** Powers of the discount factor *)

Lemma Qcpower_nonzero (x : Qc) (t : nat) : x <> 0 -> x ^ t <> 0.
Proof.
  intros Hx. induction t as [|t IH]; simpl.
  - apply Q_apart_0_1.
  - intros E. apply Qcmult_integral in E. tauto.
Qed.

Lemma Qcpower_positive (x : Qc) (t : nat) : 0 < x -> 0 < x ^ t.
Proof.
  intros Hx. induction t as [|t IH]; simpl.
  - qc_lra.
  - qc_nra.
Qed.

Lemma taxa_valida (tma : Qc) : - (1) < tma -> 0 < 1 + tma.
Proof. intros H. qc_lra. Qed.

Lemma positivo_nao_nulo (x : Qc) : 0 < x -> x <> 0.
Proof. intros H. qc_lra. Qed.

(** ** Sums *)

Lemma fold_left_Qcplus (l : list Qc) (a : Qc) :
  fold_left Qcplus l a = a + sum l.
Proof.
  unfold sum. revert a. induction l as [|x l IH]; intros a; simpl.
  - ring.
  - rewrite IH, (IH (0 + x)). ring.
Qed.

Lemma sum_cons (x : Qc) (l : list Qc) : sum (x :: l) = x + sum l.
Proof.
  unfold sum at 1. simpl. rewrite fold_left_Qcplus. ring.
Qed.

Lemma somatorio_ext (n : nat) (f g : nat -> Qc) :
  (forall i, (i < n)%nat -> f i = g i) -> somatorio n f = somatorio n g.
Proof.
  induction n as [|n IH]; intros H; simpl.
  - reflexivity.
  - rewrite IH, (H n) by (intros; try apply H; lia). reflexivity.
Qed.

Lemma somatorio_shift (n : nat) (f : nat -> Qc) :
  somatorio (S n) f = f O + somatorio n (fun t => f (S t)).
Proof.
  induction n as [|n IH].
  - simpl. ring.
  - change (somatorio (S (S n)) f) with (somatorio (S n) f + f (S n)).
    rewrite IH. simpl. ring.
Qed.

(** ** [calcular_vpl] is total away from [-1], and is the discounted sum *)

Lemma comprehension_descontados (tma : Qc) (pares : list (nat * Qc)) :
  1 + tma <> 0 ->
  comprehension (fun '(t, fc) => div fc ((1 + tma) ^ t)) pares
  = Ret (fluxos_descontados tma pares).
Proof.
  intros Hnz. induction pares as [|[t fc] pares IH]; simpl.
  - reflexivity.
  - rewrite div_ok by (apply Qcpower_nonzero; exact Hnz).
    simpl. rewrite IH. reflexivity.
Qed.

Lemma sum_descontados (tma : Qc) (l : list Qc) (k : nat) :
  sum (fluxos_descontados tma (enumerate_from k l))
  = somatorio (length l) (fun i => nth i l 0 / (1 + tma) ^ (k + i)).
Proof.
  revert k. induction l as [|x l IH]; intros k.
  - reflexivity.
  - cbn [enumerate_from fluxos_descontados map length].
    rewrite sum_cons, somatorio_shift.
    change (map _ (enumerate_from (S k) l))
      with (fluxos_descontados tma (enumerate_from (S k) l)).
    rewrite IH, Nat.add_0_r. cbn [nth]. f_equal.
    apply somatorio_ext. intros i _. rewrite Nat.add_succ_r. reflexivity.
Qed.

Lemma calcular_vpl_sum (fluxos_completos : list Qc) (tma : Qc) :
  1 + tma <> 0 ->
  calcular_vpl fluxos_completos tma
  = Ret (sum (fluxos_descontados tma (enumerate fluxos_completos))).
Proof.
  intros Hnz. unfold calcular_vpl.
  rewrite comprehension_descontados by exact Hnz. reflexivity.
Qed.

Lemma calcular_vpl_ret (fluxos_completos : list Qc) (tma : Qc) :
  1 + tma <> 0 ->
  calcular_vpl fluxos_completos tma = Ret (npv_spec fluxos_completos tma).
Proof.
  intros Hnz. rewrite calcular_vpl_sum by exact Hnz.
  unfold enumerate, npv_spec. rewrite sum_descontados. reflexivity.
Qed.

Lemma vpl_calcular_vpl (fluxos : list Qc) (taxa : Qc) :
  vpl fluxos taxa = calcular_vpl fluxos taxa.
Proof. reflexivity. Qed.

(** Equality of two closed numbers, and of two closed results, by
    evaluation: canonical rationals are equal when their fractions are. *)
Ltac qc_eval := apply Qc_is_canon; vm_compute; reflexivity.

Lemma ret_eval (o : outcome Qc) (r : Qc) :
  match o with Ret r' => Qeq_bool r' r | Raise _ => false end = true ->
  o = Ret r.
Proof.
  destruct o as [r'|e]; [|discriminate].
  intros H. apply Qeq_bool_eq, Qc_is_canon in H. congruence.
Qed.

Lemma ret_some_eval (o : outcome (option Qc)) (r : Qc) :
  match o with Ret (Some r') => Qeq_bool r' r | _ => false end = true ->
  o = Ret (Some r).
Proof.
  destruct o as [[r'|]|e]; try discriminate.
  intros H. apply Qeq_bool_eq, Qc_is_canon in H. congruence.
Qed.

(** C1, as the code has it.  For every series and every rate above -1, a
    number that [calcular_vpl] returns is the sum over the indices [t] of
    [flows[t] / (1+rate)^t] (the value, up to the rounding of binary64); and
    for [[-100, 60, 60, 60]] at 10% the value is
    [60/1.1 + 60/1.21 + 60/1.331 - 100], within 0.01 of 49.21.  That a number
    is returned is a hypothesis: see the counterexample below. *)
Theorem calcular_vpl_discounted_sum (flows : list Qc) (rate v : Qc) :
  - (1) < rate ->
  calcular_vpl flows rate = Ret v ->
  v = npv_spec flows rate
  /\ exists b : Qc,
       calcular_vpl projeto_base (dec 1 10) = Ret b
       /\ b = dec 60 1 / dec 11 10 + dec 60 1 / dec 121 100
              + dec 60 1 / dec 1331 1000 - dec 100 1
       /\ [b - dec 4921 100] < dec 1 100.
Proof.
  intros Hr Hv. split.
  - rewrite calcular_vpl_ret in Hv
      by (apply positivo_nao_nulo, taxa_valida, Hr).
    injection Hv as <-. reflexivity.
  - eexists. split; [vm_compute; reflexivity|].
    split; [qc_eval | vm_compute; reflexivity].
Qed.

Lemma calcular_vpl_discounted_sum_witness :
  - (1) < dec 1 10
  /\ calcular_vpl projeto_base (dec 1 10) = Ret (dec 65500 1331)
  /\ dec 65500 1331 = npv_spec projeto_base (dec 1 10).
Proof.
  assert (H : - (1) < dec 1 10) by (vm_compute; reflexivity).
  assert (E : calcular_vpl projeto_base (dec 1 10) = Ret (dec 65500 1331))
    by (apply ret_eval; vm_compute; reflexivity).
  split; [exact H|]. split; [exact E|].
  exact (proj1 (calcular_vpl_discounted_sum projeto_base (dec 1 10)
                  (dec 65500 1331) H E)).
Defined.

(** C1, as stated, fails in binary64: not every rate above -1 gives a number.
    At the rate [2.0 ** 600] the series [[1.0, 1.0, 1.0]] raises
    [OverflowError], since [(1 + tma) ** 2] is [2.0 ** 1200], out of range;
    at the rate [-1 + 2.0 ** -30] a series of 36 zeros followed by [1.0]
    raises [ZeroDivisionError], since [(1 + tma) ** 36] is [2.0 ** -1080],
    which underflows to [0.0]. *)
Lemma calcular_vpl_binary64_counterexample :
  PrimFloat.ltb F64.menos_um F64.dois_600 = true
  /\ F64.calcular_vpl [F64.um; F64.um; F64.um] F64.dois_600
     = F64.Raise F64.OverflowError
  /\ PrimFloat.ltb F64.menos_um F64.quase_menos_um = true
  /\ F64.calcular_vpl (repeat F64.zero 36 ++ F64.um :: nil) F64.quase_menos_um
     = F64.Raise F64.ZeroDivisionError.
Proof.
  repeat split; vm_compute; reflexivity.
Qed.

(** ** [calcular_tir]: what a returned value satisfies *)

Section TirCorreto.

Variable fluxos : list Qc.
Variable tolerancia : Qc.



End TirCorreto.




(** ** [calcular_tir]: the sign check *)

Lemma fold_left_Zadd (l : list Z) (a : Z) :
  fold_left Z.add l a = (a + sum_int l)%Z.
Proof.
  unfold sum_int. revert a. induction l as [|x l IH]; intros a; simpl.
  - lia.
  - rewrite IH, (IH x). lia.
Qed.

Lemma sum_int_cons (x : Z) (l : list Z) : sum_int (x :: l) = (x + sum_int l)%Z.
Proof.
  unfold sum_int at 1. simpl. rewrite fold_left_Zadd. lia.
Qed.

Lemma sinais_nao_negativos (l : list Qc) :
  Forall (fun f => 0 <= f) l -> sum_int (sinais l) = Z.of_nat (length l).
Proof.
  induction 1 as [|f l Hf _ IH].
  - reflexivity.
  - unfold sinais in *. cbn [map length].
    rewrite sum_int_cons, IH. apply geb_ge in Hf. rewrite Hf. lia.
Qed.

Lemma sinais_negativos (l : list Qc) :
  Forall (fun f => f < 0) l -> sum_int (sinais l) = (- Z.of_nat (length l))%Z.
Proof.
  induction 1 as [|f l Hf _ IH].
  - reflexivity.
  - unfold sinais in *. cbn [map length].
    rewrite sum_int_cons, IH. apply geb_lt in Hf. rewrite Hf. lia.
Qed.

(** C3, as the code has it.  When every entry is non-negative, or every entry
    is strictly negative, the sign check fires and [calcular_tir] returns
    [None] before any numerical phase, whatever [max_iter] and [tolerancia]. *)
Theorem calcular_tir_same_sign
    (flows : list Qc) (max_iter : nat) (tolerancia : Qc) :
  Forall (fun f => 0 <= f) flows \/ Forall (fun f => f < 0) flows ->
  mesmo_sinal flows = true
  /\ calcular_tir flows max_iter tolerancia = Ret None.
Proof.
  intros H.
  assert (Hs : mesmo_sinal flows = true).
  { unfold mesmo_sinal. apply orb_true_iff. destruct H as [H|H].
    - left. rewrite (sinais_nao_negativos _ H). apply Z.eqb_refl.
    - right. rewrite (sinais_negativos _ H). apply Z.eqb_refl. }
  split; [exact Hs|].
  unfold calcular_tir, calcular_tir_corpo. rewrite Hs. reflexivity.
Qed.

Lemma calcular_tir_same_sign_witness :
  (Forall (fun f => 0 <= f) [dec 100 1; dec 50 1; dec 60 1]
   \/ Forall (fun f => f < 0) [dec 100 1; dec 50 1; dec 60 1])
  /\ mesmo_sinal [dec 100 1; dec 50 1; dec 60 1] = true
  /\ calcular_tir_padrao [dec 100 1; dec 50 1; dec 60 1] = Ret None.
Proof.
  assert (H : Forall (fun f => 0 <= f) [dec 100 1; dec 50 1; dec 60 1]
              \/ Forall (fun f => f < 0) [dec 100 1; dec 50 1; dec 60 1]).
  { left. repeat constructor; vm_compute; discriminate. }
  split; [exact H|].
  exact (calcular_tir_same_sign [dec 100 1; dec 50 1; dec 60 1]
           max_iter_padrao tolerancia_padrao H).
Defined.

(** C3, as stated, fails: every entry of [[0, -0.01]] is non-positive, yet
    the sign check does not fire (the zero counts as a positive sign) and the
    Newton phase returns a number.  Here [vpl(taxa) = -0.01 / (1 + taxa)] and
    each Newton step doubles [1 + taxa], from 1.1 to [1.1 * 2^14 = 18022.4],
    where [|vpl| < 1e-6] holds for the first time; the derivative test
    [|derivada| < 1e-10] has not fired before, and [taxa * 100 = 1802140] is
    returned. *)
Lemma calcular_tir_nonpositive_counterexample :
  Forall (fun f => f <= 0) [0; dec (-1) 100]
  /\ mesmo_sinal [0; dec (-1) 100] = false
  /\ calcular_tir_padrao [0; dec (-1) 100] = Ret (Some (dec 1802140 1)).
Proof.
  split; [repeat constructor; vm_compute; discriminate|].
  split; [vm_compute; reflexivity|].
  apply ret_some_eval. vm_compute. reflexivity.
Qed.

(** ** [calcular_vpl] at the rate [-1] *)

Lemma um_menos_um : 1 + - (1) = 0.
Proof. ring. Qed.

Lemma div_um (a : Qc) : div a 1 = Ret a.
Proof.
  rewrite div_ok by apply Q_apart_0_1. f_equal. field. apply Q_apart_0_1.
Qed.

Lemma calcular_vpl_menos_um_raise (f0 f1 : Qc) (resto : list Qc) :
  calcular_vpl (f0 :: f1 :: resto) (- (1)) = Raise ZeroDivisionError.
Proof.
  unfold calcular_vpl, enumerate. cbn [enumerate_from comprehension].
  rewrite um_menos_um. cbn [Qcpower]. rewrite div_um, Qcmult_0_l, div_zero.
  reflexivity.
Qed.

Lemma calcular_vpl_menos_um_curto (flows : list Qc) :
  (length flows <= 1)%nat -> calcular_vpl flows (- (1)) = Ret (sum flows).
Proof.
  destruct flows as [|f0 [|f1 resto]]; simpl; intros H; try lia.
  - reflexivity.
  - unfold calcular_vpl, enumerate. cbn [enumerate_from comprehension].
    cbn [Qcpower]. rewrite div_um. reflexivity.
Qed.

(** C4, as the code has it.  At the rate -1 exactly, a series of two or more
    entries raises [ZeroDivisionError] (at index 1, where the divisor is
    [0 ** 1]); a series of at most one entry does not: index 0 divides by
    [0 ** 0 = 1], and the plain sum is returned.  At a rate above -1 a number
    that is returned is the discounted sum; that every such rate returns is
    not stated (in binary64 it does not: see the counterexample of C1). *)
Theorem calcular_vpl_domain (flows : list Qc) (rate : Qc) :
  (forall v, - (1) < rate -> calcular_vpl flows rate = Ret v ->
             v = npv_spec flows rate)
  /\ (rate = - (1) -> (2 <= length flows)%nat ->
      calcular_vpl flows rate = Raise ZeroDivisionError)
  /\ (rate = - (1) -> (length flows <= 1)%nat ->
      calcular_vpl flows rate = Ret (sum flows)).
Proof.
  split; [|split].
  - intros v Hr Hv.
    rewrite calcular_vpl_ret in Hv
      by (apply positivo_nao_nulo, taxa_valida, Hr).
    injection Hv as <-. reflexivity.
  - intros -> Hlen. destruct flows as [|f0 [|f1 resto]]; simpl in Hlen; try lia.
    apply calcular_vpl_menos_um_raise.
  - intros -> Hlen. apply calcular_vpl_menos_um_curto, Hlen.
Qed.

Lemma calcular_vpl_domain_witness :
  (- (1) < dec 1 10
   /\ calcular_vpl projeto_base (dec 1 10) = Ret (dec 65500 1331)
   /\ dec 65500 1331 = npv_spec projeto_base (dec 1 10))
  /\ ((2 <= length projeto_base)%nat
      /\ calcular_vpl projeto_base (- (1)) = Raise ZeroDivisionError)
  /\ ((length [dec 5 1] <= 1)%nat
      /\ calcular_vpl [dec 5 1] (- (1)) = Ret (sum [dec 5 1])).
Proof.
  assert (H1 : - (1) < dec 1 10) by (vm_compute; reflexivity).
  assert (H2 : (2 <= length projeto_base)%nat) by (simpl; lia).
  assert (H3 : (length [dec 5 1] <= 1)%nat) by (simpl; lia).
  assert (E : calcular_vpl projeto_base (dec 1 10) = Ret (dec 65500 1331))
    by (apply ret_eval; vm_compute; reflexivity).
  split; [|split].
  - split; [exact H1|]. split; [exact E|].
    exact (proj1 (calcular_vpl_domain projeto_base (dec 1 10)) _ H1 E).
  - split; [exact H2|].
    exact (proj1 (proj2 (calcular_vpl_domain projeto_base (- (1))))
             eq_refl H2).
  - split; [exact H3|].
    exact (proj2 (proj2 (calcular_vpl_domain [dec 5 1] (- (1))))
             eq_refl H3).
Defined.

(** C4, as stated, fails: at the rate -1 the one-entry series [[5]] does not
    raise, it returns 5. *)
Lemma calcular_vpl_minus_one_counterexample :
  calcular_vpl [dec 5 1] (- (1)) = Ret (dec 5 1)
  /\ calcular_vpl [dec 5 1] (- (1)) <> Raise ZeroDivisionError.
Proof.
  assert (H : calcular_vpl [dec 5 1] (- (1)) = Ret (dec 5 1))
    by (apply ret_eval; vm_compute; reflexivity).
  split; [exact H|]. rewrite H. discriminate.
Qed.

(** ** [calcular_payback_descontado] on the benchmark project *)

(** C5, as the code has it.  For [[-100, 60, 60, 60]] at 10% the discounted
    flows are -100, 600/11, 6000/121 and 60000/1331 (54.55, 49.59 and 45.08 to
    two decimals); the running sum is negative after period 1 and non-negative
    after period 2; and the result is [(2 - 1) + |sum after period 1| /
    (discounted flow of period 2) = 23/12], which is 1.92 to two decimals. *)
Theorem calcular_payback_descontado_benchmark :
  exists d0 d1 d2 d3 v : Qc,
    fluxos_descontados (dec 1 10) (enumerate projeto_base) = [d0; d1; d2; d3]
    /\ d0 = dec (-100) 1
    /\ [d1 - dec 5455 100] < dec 1 200
    /\ [d2 - dec 4959 100] < dec 1 200
    /\ [d3 - dec 4508 100] < dec 1 200
    /\ 0 + d0 + d1 < 0
    /\ 0 <= 0 + d0 + d1 + d2
    /\ calcular_payback_descontado projeto_base (dec 1 10) = Ret (Some v)
    /\ v = of_nat (2 - 1) + [0 + d0 + d1] / d2
    /\ v = dec 23 12
    /\ [v - dec 192 100] < dec 1 200.
Proof.
  do 4 eexists. exists (dec 23 12).
  split; [reflexivity|].
  split; [qc_eval|].
  repeat (split; [vm_compute; reflexivity|]).
  split; [vm_compute; discriminate|].
  split; [apply ret_some_eval; vm_compute; reflexivity|].
  split; [qc_eval|].
  split; [reflexivity | vm_compute; reflexivity].
Qed.

(** C5, as stated, fails: the value returned is more than 0.03 away from
    1.95, and the discounted flow of period 3 is more than 7 away from
    37.57. *)
Lemma calcular_payback_descontado_benchmark_counterexample :
  exists v d3 : Qc,
    calcular_payback_descontado projeto_base (dec 1 10) = Ret (Some v)
    /\ dec 3 100 < [v - dec 195 100]
    /\ nth 3 (fluxos_descontados (dec 1 10) (enumerate projeto_base)) 0 = d3
    /\ dec 7 1 < [d3 - dec 3757 100].
Proof.
  exists (dec 23 12). eexists.
  split; [apply ret_some_eval; vm_compute; reflexivity|].
  split; [vm_compute; reflexivity|].
  split; [reflexivity | vm_compute; reflexivity].
Qed.

(** ** [vpl] away from the rate -1 *)

Section TirTotal.

Variable fluxos : list Qc.
Variable tolerancia : Qc.

Lemma vpl_total (taxa : Qc) :
  1 + taxa <> 0 -> exists v, vpl fluxos taxa = Ret v.
Proof.
  intros Hnz. rewrite vpl_calcular_vpl, calcular_vpl_sum by exact Hnz.
  eexists. reflexivity.
Qed.

End TirTotal.

(** ** [calcular_tir] on particular projects *)

Lemma ret_some_near (o : outcome (option Qc)) (c eps : Qc) :
  match o with Ret (Some r) => ltb [r - c] eps | _ => false end = true ->
  exists r : Qc, o = Ret (Some r) /\ [r - c] < eps.
Proof.
  destruct o as [[r|]|e]; try discriminate.
  intros H. exists r. split; [reflexivity | apply ltb_lt, H].
Qed.

(** C6 fails on [[-20, 11]].  At the starting rate 10% the value is
    [-20 + 11/1.1 = -10] and the derivative is [-11/1.21], so the first Newton
    step gives [0.1 - 1.1 = -1]; the next evaluation of [vpl] divides 11 by
    [0 ** 1] and the [ZeroDivisionError] leaves [calcular_tir]. *)
Theorem calcular_tir_raises :
  mesmo_sinal [dec (-20) 1; dec 11 1] = false
  /\ vpl [dec (-20) 1; dec 11 1] (dec 1 10) = Ret (dec (-10) 1)
  /\ vpl_derivada [dec (-20) 1; dec 11 1] (dec 1 10) = Ret (dec (-1100) 121)
  /\ dec 1 10 - dec (-10) 1 / dec (-1100) 121 = - (1)
  /\ vpl [dec (-20) 1; dec 11 1] (- (1)) = Raise ZeroDivisionError
  /\ calcular_tir_padrao [dec (-20) 1; dec 11 1] = Raise ZeroDivisionError.
Proof.
  split; [vm_compute; reflexivity|].
  split; [apply ret_eval; vm_compute; reflexivity|].
  split; [apply ret_eval; vm_compute; reflexivity|].
  split; [qc_eval|].
  split; vm_compute; reflexivity.
Qed.

(** C7. [calcular_tir([-100, 60, 60, 60])] returns a number within 0.1 of
    36.31. *)
Theorem calcular_tir_benchmark :
  exists r : Qc,
    calcular_tir_padrao projeto_base = Ret (Some r)
    /\ [r - dec 3631 100] < dec 1 10.
Proof.
  apply ret_some_near. vm_compute. reflexivity.
Qed.

(** ** [calcular_vpl] as a function of the rate *)

Lemma Qcinv_positive (a : Qc) : 0 < a -> 0 < / a.
Proof. intros H. to_Q. apply Qinv_lt_0_compat, H. Qed.

Lemma Qcinv_lt_contravar (a b : Qc) : 0 < a -> a < b -> / b < / a.
Proof.
  intros Ha Hab. to_Q.
  assert (Hb : (0 < b)%Q) by lra.
  apply (proj1 (Qinv_lt_contravar a b Ha Hb)), Hab.
Qed.

Lemma Qcinv_power (x : Qc) (t : nat) : / (x ^ t) = (/ x) ^ t.
Proof.
  induction t as [|t IH]; simpl.
  - qc_eval.
  - rewrite Qcinv_mult_distr, IH. reflexivity.
Qed.

Lemma Qcpower_lt (a b : Qc) (t : nat) :
  0 < a -> a < b -> a ^ S t < b ^ S t.
Proof.
  intros Ha Hab. induction t as [|t IH].
  - simpl. qc_lra.
  - assert (Hp := Qcpower_positive a (S t) Ha).
    change (a ^ S (S t)) with (a * a ^ S t).
    change (b ^ S (S t)) with (b * b ^ S t).
    qc_nra.
Qed.

Section Monotonia.

Variables r1 r2 : Qc.
Hypothesis Hr1 : 0 < 1 + r1.
Hypothesis Hr12 : r1 < r2.

(** One positive flow, discounted over at least one period, is worth
    strictly less at the higher rate. *)
Lemma termo_decrescente (f : Qc) (k : nat) :
  0 < f -> f / (1 + r2) ^ S k < f / (1 + r1) ^ S k.
Proof.
  intros Hf. unfold Qcdiv. rewrite !Qcinv_power.
  assert (H12 : 1 + r1 < 1 + r2) by qc_lra.
  assert (Hu : 0 < / (1 + r2)) by (apply Qcinv_positive; qc_lra).
  assert (Hlt := Qcpower_lt _ _ k Hu (Qcinv_lt_contravar _ _ Hr1 H12)).
  qc_nra.
Qed.

Lemma descontados_decrescente (l : list Qc) (k : nat) :
  Forall (fun f => 0 < f) l ->
  sum (fluxos_descontados r2 (enumerate_from (S k) l))
  <= sum (fluxos_descontados r1 (enumerate_from (S k) l)).
Proof.
  intros H. revert k. induction H as [|f l Hf _ IH]; intros k.
  - apply Qcle_refl.
  - cbn [enumerate_from fluxos_descontados map]. rewrite !sum_cons.
    assert (Ht := termo_decrescente f k Hf).
    specialize (IH (S k)). unfold fluxos_descontados in IH.
    qc_lra.
Qed.

Lemma descontados_estritamente_decrescente (l : list Qc) (k : nat) :
  l <> [] ->
  Forall (fun f => 0 < f) l ->
  sum (fluxos_descontados r2 (enumerate_from (S k) l))
  < sum (fluxos_descontados r1 (enumerate_from (S k) l)).
Proof.
  intros Hne H. destruct H as [|f l Hf Hl]; [contradiction|].
  cbn [enumerate_from fluxos_descontados map]. rewrite !sum_cons.
  assert (Ht := termo_decrescente f k Hf).
  assert (Hs := descontados_decrescente l (S k) Hl).
  unfold fluxos_descontados in Hs.
  qc_lra.
Qed.

End Monotonia.

(** C8, as the code has it.  For a series with a negative first entry
    followed by one or more positive entries, and two rates above -1 at which
    [calcular_vpl] returns numbers, the number at the higher rate is not the
    larger.  (In exact arithmetic it is strictly the smaller; binary64 can
    round the two to the same float, and can raise: see the counterexample
    below.) *)
Theorem calcular_vpl_nonincreasing
    (f0 : Qc) (rest : list Qc) (r1 r2 v1 v2 : Qc) :
  f0 < 0 ->
  rest <> [] ->
  Forall (fun f => 0 < f) rest ->
  - (1) < r1 ->
  r1 < r2 ->
  calcular_vpl (f0 :: rest) r1 = Ret v1 ->
  calcular_vpl (f0 :: rest) r2 = Ret v2 ->
  v2 <= v1.
Proof.
  intros _ Hne Hpos Hr1 Hr12 E1 E2.
  assert (H1 : 0 < 1 + r1) by (apply taxa_valida, Hr1).
  assert (H2 : 0 < 1 + r2) by qc_lra.
  rewrite calcular_vpl_sum in E1 by (apply positivo_nao_nulo, H1).
  rewrite calcular_vpl_sum in E2 by (apply positivo_nao_nulo, H2).
  injection E1 as <-. injection E2 as <-.
  unfold enumerate. cbn [enumerate_from fluxos_descontados map Qcpower].
  rewrite !sum_cons.
  assert (Hs := descontados_estritamente_decrescente r1 r2 H1 Hr12 rest 0
                  Hne Hpos).
  unfold fluxos_descontados in *.
  qc_lra.
Qed.

Lemma calcular_vpl_nonincreasing_witness :
  calcular_vpl projeto_base (dec 5 100)
  = Ret (npv_spec projeto_base (dec 5 100))
  /\ calcular_vpl projeto_base (dec 15 100)
     = Ret (npv_spec projeto_base (dec 15 100))
  /\ npv_spec projeto_base (dec 15 100) <= npv_spec projeto_base (dec 5 100).
Proof.
  assert (E1 : calcular_vpl projeto_base (dec 5 100)
               = Ret (npv_spec projeto_base (dec 5 100)))
    by (apply calcular_vpl_ret; vm_compute; discriminate).
  assert (E2 : calcular_vpl projeto_base (dec 15 100)
               = Ret (npv_spec projeto_base (dec 15 100)))
    by (apply calcular_vpl_ret; vm_compute; discriminate).
  split; [exact E1|]. split; [exact E2|].
  apply (calcular_vpl_nonincreasing
           (dec (-100) 1) [dec 60 1; dec 60 1; dec 60 1]
           (dec 5 100) (dec 15 100)).
  - vm_compute. reflexivity.
  - discriminate.
  - repeat constructor; vm_compute; reflexivity.
  - vm_compute. reflexivity.
  - vm_compute. reflexivity.
  - exact E1.
  - exact E2.
Defined.

(** C8, as stated, fails in binary64.  For [[-100.0, 2.0 ** -1000]] (a
    negative flow followed by a positive one) the rates 0 and 1 both give
    exactly [-100.0]: the discounted second flow is absorbed by the rounding
    of the sum, so the value at the higher rate is not strictly smaller. *)
Lemma calcular_vpl_binary64_absorption_counterexample :
  PrimFloat.ltb F64.menos_cem F64.zero = true
  /\ PrimFloat.ltb F64.zero F64.dois_menos_1000 = true
  /\ PrimFloat.ltb F64.menos_um F64.zero = true
  /\ PrimFloat.ltb F64.zero F64.um = true
  /\ F64.calcular_vpl [F64.menos_cem; F64.dois_menos_1000] F64.zero
     = F64.Ret F64.menos_cem
  /\ F64.calcular_vpl [F64.menos_cem; F64.dois_menos_1000] F64.um
     = F64.Ret F64.menos_cem.
Proof.
  repeat split; vm_compute; reflexivity.
Qed.

(** ** [calcular_payback_descontado]: the search and the interpolation *)

(** The loop is the search followed by the final step. *)
Lemma payback_laco_busca (tma acumulado : Qc) (pares : list (nat * Qc)) :
  payback_laco tma acumulado pares
  = (p <- payback_busca tma acumulado pares ;; payback_fim p).
Proof.
  revert acumulado. induction pares as [|[t fc] resto IH]; intros acumulado.
  - reflexivity.
  - cbn [payback_laco payback_busca].
    destruct (div fc ((1 + tma) ^ t)) as [fluxo_desc|e]; [|reflexivity].
    cbn [bind]. destruct (geb (acumulado + fluxo_desc) 0); [|apply IH].
    destruct (Nat.eqb t 0); reflexivity.
Qed.



Lemma div_potencia_zero (f x : Qc) : f / x ^ 0 = f.
Proof. simpl. field. apply Q_apart_0_1. Qed.




(** ** [calcular_payback_descontado]: the range of the result *)







(** * Further properties of the three functions *)

(** ** [calcular_vpl]: identities *)

Lemma descontados_taxa_zero (l : list Qc) (k : nat) :
  fluxos_descontados 0 (enumerate_from k l) = l.
Proof.
  revert k. induction l as [|f l IH]; intros k.
  - reflexivity.
  - cbn [enumerate_from fluxos_descontados map].
    change (map _ (enumerate_from (S k) l))
      with (fluxos_descontados 0 (enumerate_from (S k) l)).
    rewrite IH. f_equal.
    replace (1 + 0) with 1 by ring. rewrite Qcpower_1.
    field. apply Q_apart_0_1.
Qed.

(** X1. At the rate 0 [calcular_vpl] returns the plain sum of the flows. *)
Theorem calcular_vpl_zero_rate (flows : list Qc) :
  calcular_vpl flows 0 = Ret (sum flows).
Proof.
  rewrite calcular_vpl_sum.
  - unfold enumerate. rewrite descontados_taxa_zero. reflexivity.
  - replace (1 + 0) with 1 by ring. apply Q_apart_0_1.
Qed.

Lemma descontados_desloca (tma : Qc) (l : list Qc) (k : nat) :
  1 + tma <> 0 ->
  sum (fluxos_descontados tma (enumerate_from (S k) l))
  = sum (fluxos_descontados tma (enumerate_from k l)) / (1 + tma).
Proof.
  intros Hnz. revert k. induction l as [|f l IH]; intros k.
  - cbn. field. exact Hnz.
  - cbn [enumerate_from fluxos_descontados map]. rewrite !sum_cons.
    change (map _ (enumerate_from (S (S k)) l))
      with (fluxos_descontados tma (enumerate_from (S (S k)) l)).
    change (map _ (enumerate_from (S k) l))
      with (fluxos_descontados tma (enumerate_from (S k) l)).
    rewrite (IH (S k)). cbn [Qcpower].
    assert (Hp := Qcpower_nonzero (1 + tma) k Hnz).
    field. split; assumption.
Qed.

(** X2. Away from the rate -1, when [calcular_vpl] returns a number [v] for
    the flows after the first and a number [w] for the whole series, [w] is
    the first flow plus [v] discounted by one more period:
    [w = f0 + v / (1 + rate)]. *)
Theorem calcular_vpl_cons (f0 : Qc) (rest : list Qc) (rate v w : Qc) :
  rate <> - (1) ->
  calcular_vpl rest rate = Ret v ->
  calcular_vpl (f0 :: rest) rate = Ret w ->
  w = f0 + v / (1 + rate).
Proof.
  intros Hr Ev Ew.
  assert (Hnz : 1 + rate <> 0).
  { intros E. apply Hr. replace rate with (1 + rate - 1) by ring.
    rewrite E. ring. }
  rewrite calcular_vpl_sum in Ev, Ew by exact Hnz.
  injection Ev as <-. injection Ew as <-.
  unfold enumerate.
  change (fluxos_descontados rate (enumerate_from 0 (f0 :: rest)))
    with (f0 / (1 + rate) ^ 0
          :: fluxos_descontados rate (enumerate_from 1 rest)).
  rewrite sum_cons, descontados_desloca by exact Hnz.
  f_equal. apply (div_potencia_zero f0 (1 + rate)).
Qed.

Lemma calcular_vpl_cons_witness :
  dec 1 10 <> - (1)
  /\ calcular_vpl [dec 60 1; dec 60 1; dec 60 1] (dec 1 10)
     = Ret (dec 19860 121)
  /\ calcular_vpl projeto_base (dec 1 10) = Ret (dec 65500 1331)
  /\ dec 65500 1331 = dec (-100) 1 + dec 19860 121 / (1 + dec 1 10).
Proof.
  assert (H : dec 1 10 <> - (1)) by (vm_compute; discriminate).
  assert (Ev : calcular_vpl [dec 60 1; dec 60 1; dec 60 1] (dec 1 10)
               = Ret (dec 19860 121))
    by (apply ret_eval; vm_compute; reflexivity).
  assert (Ew : calcular_vpl projeto_base (dec 1 10) = Ret (dec 65500 1331))
    by (apply ret_eval; vm_compute; reflexivity).
  split; [exact H|]. split; [exact Ev|]. split; [exact Ew|].
  exact (calcular_vpl_cons (dec (-100) 1) [dec 60 1; dec 60 1; dec 60 1]
           (dec 1 10) (dec 19860 121) (dec 65500 1331) H Ev Ew).
Defined.

(** ** [calcular_payback_descontado]: the first non-negative running sum *)

Lemma parcial_zero (tma : Qc) (k : nat) (x : Qc) (l : list Qc) :
  parcial tma k (x :: l) 0 = x / (1 + tma) ^ k.
Proof.
  unfold parcial. cbn [somatorio nth]. rewrite Nat.add_0_r. ring.
Qed.

Lemma parcial_cons (tma : Qc) (k : nat) (x : Qc) (l : list Qc) (j : nat) :
  parcial tma k (x :: l) (S j) = x / (1 + tma) ^ k + parcial tma (S k) l j.
Proof.
  unfold parcial. rewrite somatorio_shift. cbn [nth].
  rewrite Nat.add_0_r. f_equal.
  apply somatorio_ext. intros i _. rewrite Nat.add_succ_r. reflexivity.
Qed.

Lemma parcial_S (tma : Qc) (k : nat) (l : list Qc) (j : nat) :
  parcial tma k l (S j)
  = parcial tma k l j + nth (S j) l 0 / (1 + tma) ^ (k + S j).
Proof. reflexivity. Qed.

(** The running sum from period 0 is what [calcular_vpl] returns on the
    first [j + 1] flows. *)
Lemma calcular_vpl_firstn (flows : list Qc) (tma : Qc) (j : nat) :
  1 + tma <> 0 ->
  (j < length flows)%nat ->
  calcular_vpl (firstn (S j) flows) tma = Ret (parcial tma 0 flows j).
Proof.
  intros Hnz Hj. rewrite calcular_vpl_ret by exact Hnz. f_equal.
  unfold npv_spec, parcial. rewrite firstn_length_le by lia.
  apply somatorio_ext. intros i Hi. rewrite nth_firstn.
  destruct (Nat.ltb_spec i (S j)); [reflexivity | lia].
Qed.

Lemma payback_busca_parcial (tma : Qc) (l : list Qc) (k : nat) (acumulado : Qc) :
  1 + tma <> 0 ->
  exists p,
    payback_busca tma acumulado (enumerate_from k l) = Ret p
    /\ ponto_parcial tma k l acumulado p.
Proof.
  intros Hnz. revert k acumulado.
  induction l as [|fc l IH]; intros k acumulado.
  - exists Esgotado. split; [reflexivity|]. simpl. intros j Hj. lia.
  - cbn [enumerate_from payback_busca].
    rewrite div_ok by (apply Qcpower_nonzero, Hnz). cbn [bind].
    destruct (geb (acumulado + fc / (1 + tma) ^ k) 0) eqn:G.
    + apply geb_ge in G. destruct (Nat.eqb k 0) eqn:Ek.
      * apply Nat.eqb_eq in Ek. exists Imediato. split; [reflexivity|].
        cbn [ponto_parcial]. rewrite parcial_zero.
        split; [exact Ek|]. split; [discriminate | exact G].
      * apply Nat.eqb_neq in Ek.
        eexists. split; [reflexivity|]. cbn [ponto_parcial].
        exists O. rewrite parcial_zero, Nat.add_0_r. cbn [length nth].
        split; [lia|]. split; [reflexivity|]. split; [exact Ek|].
        split; [intros j' Hj'; lia|]. auto.
    + apply geb_lt in G.
      destruct (IH (S k) (acumulado + fc / (1 + tma) ^ k)) as (p & Hp & Hs).
      exists p. split; [exact Hp|].
      destruct p as [| |t a fd]; cbn [ponto_parcial] in *.
      * intros [|j] Hj.
        -- rewrite parcial_zero. exact G.
        -- rewrite parcial_cons, Qcplus_assoc. apply Hs. simpl in Hj. lia.
      * destruct Hs as [Hk _]. discriminate.
      * destruct Hs as (j & Hj & Ht & Ht0 & Hbefore & Ha & Hge & Hfd).
        exists (S j). cbn [length nth].
        split; [lia|]. split; [lia|]. split; [exact Ht0|].
        split; [|split; [|split]].
        -- intros [|j'] Hj'.
           ++ rewrite parcial_zero. exact G.
           ++ rewrite parcial_cons, Qcplus_assoc. apply Hbefore. lia.
        -- rewrite parcial_cons, Qcplus_assoc. exact Ha.
        -- exact Hge.
        -- rewrite Nat.add_succ_r. exact Hfd.
Qed.

Lemma taxa_nao_menos_um (rate : Qc) : rate <> - (1) -> 1 + rate <> 0.
Proof.
  intros Hr E. apply Hr. replace rate with (1 + rate - 1) by ring.
  rewrite E. ring.
Qed.

(** The three ways [calcular_payback_descontado] ends away from the rate -1,
    with the running sums that decide them. *)
Lemma payback_resultado (flows : list Qc) (tma : Qc) :
  1 + tma <> 0 ->
  (calcular_payback_descontado flows tma = Ret None
   /\ forall j, (j < length flows)%nat -> parcial tma 0 flows j < 0)
  \/ (calcular_payback_descontado flows tma = Ret (Some 0)
      /\ flows <> [] /\ 0 <= parcial tma 0 flows 0)
  \/ (exists j,
         calcular_payback_descontado flows tma
         = Ret (Some (of_nat j
                      + - parcial tma 0 flows j
                        / (parcial tma 0 flows (S j) - parcial tma 0 flows j)))
         /\ (S j < length flows)%nat
         /\ (forall j', (j' <= j)%nat -> parcial tma 0 flows j' < 0)
         /\ 0 <= parcial tma 0 flows (S j)).
Proof.
  intros Hnz. unfold calcular_payback_descontado, enumerate.
  rewrite payback_laco_busca.
  destruct (payback_busca_parcial tma flows 0 0 Hnz) as (p & Hp & Hs).
  rewrite Hp. cbn [bind].
  destruct p as [| |t a fd]; cbn [ponto_parcial payback_fim] in *.
  - left. split; [reflexivity|].
    intros j Hj. specialize (Hs j Hj). qc_lra.
  - right. left. destruct Hs as (_ & Hne & Hge).
    split; [reflexivity|]. split; [exact Hne | qc_lra].
  - right. right.
    destruct Hs as (j & Hj & Ht & Ht0 & Hbefore & Ha & Hge & Hfd).
    simpl in Ht. subst t. destruct j as [|j]; [contradiction|].
    exists j.
    assert (Hprev : parcial tma 0 flows j < 0).
    { specialize (Hbefore j (Nat.lt_succ_diag_r j)). qc_lra. }
    assert (Hfd' : fd = parcial tma 0 flows (S j) - parcial tma 0 flows j).
    { rewrite parcial_S, Hfd. ring. }
    assert (Hsem : a - fd = parcial tma 0 flows j).
    { rewrite Ha, parcial_S, Hfd. ring. }
    assert (Hpos : 0 < fd) by (rewrite Ha in Hge; rewrite Hfd'; qc_lra).
    rewrite div_ok by (apply positivo_nao_nulo, Hpos). cbn [bind].
    rewrite Hsem, Qcabs_neg by (apply Qclt_le_weak, Hprev).
    rewrite Hfd'. cbn [Nat.sub]. rewrite Nat.sub_0_r.
    split; [reflexivity|]. split; [exact Hj|].
    split; [|rewrite Ha in Hge; qc_lra].
    intros j' Hj'. specialize (Hbefore j' ltac:(lia)). qc_lra.
Qed.





(** X6. At the rate -1 exactly, [calcular_payback_descontado] returns 0 when
    the first flow is non-negative (the loop returns before any later
    division), returns [None] for a single negative flow, and raises
    [ZeroDivisionError] for a negative first flow followed by any other flow
    (the flow of period 1 is divided by [0 ** 1]). *)
Theorem calcular_payback_descontado_minus_one (f0 : Qc) (rest : list Qc) :
  (0 <= f0 -> calcular_payback_descontado (f0 :: rest) (- (1)) = Ret (Some 0))
  /\ (f0 < 0 -> rest = [] ->
      calcular_payback_descontado (f0 :: rest) (- (1)) = Ret None)
  /\ (f0 < 0 -> rest <> [] ->
      calcular_payback_descontado (f0 :: rest) (- (1))
      = Raise ZeroDivisionError).
Proof.
  unfold calcular_payback_descontado, enumerate.
  cbn [enumerate_from payback_laco]. rewrite um_menos_um. cbn [Qcpower].
  rewrite div_um. cbn [bind].
  split; [|split].
  - intros H. assert (G : geb (0 + f0) 0 = true) by (apply geb_ge; qc_lra).
    rewrite G. reflexivity.
  - intros H ->. assert (G : geb (0 + f0) 0 = false) by (apply geb_lt; qc_lra).
    rewrite G. reflexivity.
  - intros H Hne. assert (G : geb (0 + f0) 0 = false) by (apply geb_lt; qc_lra).
    rewrite G. destruct rest as [|f1 rest]; [contradiction|].
    cbn [enumerate_from payback_laco Qcpower].
    rewrite Qcmult_0_l, div_zero. reflexivity.
Qed.

Lemma calcular_payback_descontado_minus_one_witness :
  (0 <= dec 5 1
   /\ calcular_payback_descontado [dec 5 1; dec 60 1] (- (1)) = Ret (Some 0))
  /\ (dec (-100) 1 < 0
      /\ calcular_payback_descontado [dec (-100) 1; dec 60 1] (- (1))
         = Raise ZeroDivisionError).
Proof.
  assert (H1 : 0 <= dec 5 1) by (vm_compute; discriminate).
  assert (H2 : dec (-100) 1 < 0) by (vm_compute; reflexivity).
  assert (H3 : ([dec 60 1] <> [])%list) by discriminate.
  split.
  - split; [exact H1|].
    exact (proj1 (calcular_payback_descontado_minus_one (dec 5 1) [dec 60 1])
             H1).
  - split; [exact H2|].
    exact (proj2 (proj2 (calcular_payback_descontado_minus_one
                           (dec (-100) 1) [dec 60 1])) H2 H3).
Defined.

(** ** The script: what the three results say together *)

Lemma calcular_vpl_parcial (flows : list Qc) (tma : Qc) :
  1 + tma <> 0 ->
  flows <> [] ->
  calcular_vpl flows tma = Ret (parcial tma 0 flows (length flows - 1)).
Proof.
  intros Hnz Hne.
  assert (Hl : (0 < length flows)%nat)
    by (destruct flows; [contradiction | simpl; lia]).
  rewrite <- (firstn_all flows) at 1.
  replace (length flows) with (S (length flows - 1)) at 1 by lia.
  apply calcular_vpl_firstn; [exact Hnz | lia].
Qed.

(** X7. Away from the rate -1, [vpl_base] and [payback] both return, and they
    agree: when the payback is [None] the VPL is strictly negative (the error
    box is shown), so a VPL that is zero or positive always comes with a
    payback number. *)
Theorem vpl_base_payback_agree
    (investimento_inicial tma_base : Qc) (fluxos : list Qc) :
  tma_base <> - (1) ->
  exists v r,
    vpl_base investimento_inicial tma_base fluxos = Ret v
    /\ payback investimento_inicial tma_base fluxos = Ret r
    /\ (r = None -> v < 0 /\ interpretacao_vpl v = Error)
    /\ (0 <= v -> exists p, r = Some p).
Proof.
  intros Hr. assert (Hnz := taxa_nao_menos_um tma_base Hr).
  unfold vpl_base, payback.
  set (flows := fluxos_com_investimento investimento_inicial fluxos).
  assert (Hne : flows <> []) by discriminate.
  rewrite (calcular_vpl_parcial flows tma_base Hnz Hne).
  assert (Hlast : (length flows - 1 < length flows)%nat)
    by (unfold flows; simpl; lia).
  destruct (payback_resultado flows tma_base Hnz)
    as [[E Hall]|[(E & _ & Hge)|(j & E & Hj & Hbefore & Hge)]];
    rewrite E; do 2 eexists; (split; [reflexivity|]); (split; [reflexivity|]).
  - specialize (Hall _ Hlast). split.
    + intros _. split; [exact Hall|].
      unfold interpretacao_vpl.
      assert (G : ltb 0 (parcial tma_base 0 flows (length flows - 1)) = false)
        by (apply ltb_ge; qc_lra).
      rewrite G. reflexivity.
    + intros H. exfalso. qc_lra.
  - split; [discriminate | eauto].
  - split; [discriminate | eauto].
Qed.

Lemma vpl_base_payback_agree_witness :
  dec 1 10 <> - (1)
  /\ exists v r,
       vpl_base (dec (-100) 1) (dec 1 10) [dec 10 1; dec 10 1] = Ret v
       /\ payback (dec (-100) 1) (dec 1 10) [dec 10 1; dec 10 1] = Ret r
       /\ (r = None -> v < 0 /\ interpretacao_vpl v = Error)
       /\ (0 <= v -> exists p, r = Some p).
Proof.
  assert (H : dec 1 10 <> - (1)) by (vm_compute; discriminate).
  split; [exact H|].
  exact (vpl_base_payback_agree (dec (-100) 1) (dec 1 10)
           [dec 10 1; dec 10 1] H).
Defined.

(** X8. When the initial investment is zero or positive, whatever the rate
    and the yearly flows: [payback] is the number 0, which the condition
    [if payback] takes as false, so the metric shows "Não recuperado"; and
    [tir] is [None] without [calcular_tir] being called. *)
Theorem investimento_nao_negativo
    (investimento_inicial tma_base : Qc) (fluxos : list Qc) :
  0 <= investimento_inicial ->
  payback investimento_inicial tma_base fluxos = Ret (Some 0)
  /\ payback_txt (Some 0) = NaoRecuperado
  /\ tir investimento_inicial fluxos = Ret None.
Proof.
  intros H. split; [|split].
  - unfold payback, calcular_payback_descontado, enumerate.
    cbn [fluxos_com_investimento app enumerate_from payback_laco Qcpower].
    rewrite div_um. cbn [bind].
    assert (G : geb (0 + investimento_inicial) 0 = true)
      by (apply geb_ge; qc_lra).
    rewrite G. reflexivity.
  - reflexivity.
  - unfold tir.
    assert (G : ltb investimento_inicial 0 = false) by (apply ltb_ge, H).
    rewrite G. reflexivity.
Qed.

Lemma investimento_nao_negativo_witness :
  0 <= dec 100 1
  /\ payback (dec 100 1) (dec 1 10) [dec 60 1] = Ret (Some 0)
  /\ payback_txt (Some 0) = NaoRecuperado
  /\ tir (dec 100 1) [dec 60 1] = Ret None.
Proof.
  assert (H : 0 <= dec 100 1) by (vm_compute; discriminate).
  split; [exact H|].
  exact (investimento_nao_negativo (dec 100 1) (dec 1 10) [dec 60 1] H).
Defined.



(** ** [calcular_tir]: the bisection loop *)

Lemma dois_nao_nulo : dec 2 1 <> 0.
Proof. intros E. apply this_eq in E. vm_compute in E. discriminate. Qed.

Lemma metade (a b : Qc) :
  a <= b ->
  a <= (a + b) / dec 2 1 /\ (a + b) / dec 2 1 <= b
  /\ (a + b) / dec 2 1 - a = (b - a) / dec 2 1
  /\ b - (a + b) / dec 2 1 = (b - a) / dec 2 1.
Proof.
  intros H. repeat split;
    try (to_Q; change (/ (2 # 1))%Q with (1 # 2)%Q; lra);
    field; apply dois_nao_nulo.
Qed.

Section Bissecao.

Variable fluxos : list Qc.
Variable tolerancia : Qc.

(** The bracket after the loop: nested in the initial one, halved [k] times,
    where [k] counts the iterations before the width test stopped the loop. *)
Lemma bissecao_estreita (iter : nat) (esquerda direita : Qc) :
  - (1) < esquerda ->
  esquerda <= direita ->
  exists e d k,
    bissecao fluxos tolerancia iter esquerda direita = Ret (e, d)
    /\ (k <= iter)%nat
    /\ esquerda <= e /\ e <= d /\ d <= direita
    /\ d - e = (direita - esquerda) / dec 2 1 ^ k
    /\ ((k < iter)%nat -> d - e < tolerancia)
    /\ (forall j, (j < k)%nat ->
          tolerancia <= (direita - esquerda) / dec 2 1 ^ j).
Proof.
  revert esquerda direita.
  induction iter as [|iter IH]; intros esquerda direita He Hed.
  - exists esquerda, direita, O. cbn [bissecao].
    rewrite div_potencia_zero.
    repeat split; auto; try apply Qcle_refl; try (intros; lia).
  - cbn [bissecao]. destruct (ltb (direita - esquerda) tolerancia) eqn:Hw.
    + apply ltb_lt in Hw. exists esquerda, direita, O.
      rewrite div_potencia_zero.
      repeat split; auto; try apply Qcle_refl; try (intros; lia).
    + apply ltb_ge in Hw.
      destruct (metade esquerda direita Hed) as (Hem & Hmd & Hl & Hr).
      set (meio := (esquerda + direita) / dec 2 1) in *.
      destruct (vpl_total fluxos esquerda) as [ve Hve]; [qc_lra|].
      destruct (vpl_total fluxos meio) as [vm Hvm]; [qc_lra|].
      rewrite Hve, Hvm. cbn [bind].
      assert (Hstep : forall a b,
                 - (1) < a -> a <= b -> esquerda <= a -> b <= direita ->
                 b - a = (direita - esquerda) / dec 2 1 ->
                 exists e d k,
                   bissecao fluxos tolerancia iter a b = Ret (e, d)
                   /\ (k <= S iter)%nat
                   /\ esquerda <= e /\ e <= d /\ d <= direita
                   /\ d - e = (direita - esquerda) / dec 2 1 ^ k
                   /\ ((k < S iter)%nat -> d - e < tolerancia)
                   /\ (forall j, (j < k)%nat ->
                         tolerancia <= (direita - esquerda) / dec 2 1 ^ j)).
      { intros a b Ha Hab Hea Hbd Hwab.
        destruct (IH a b Ha Hab)
          as (e & d & k & Hb & Hk & Hae & Hed' & Hdb & Hwid & Hstop & Hbig).
        assert (Hshift : forall n,
                   (b - a) / dec 2 1 ^ n
                   = (direita - esquerda) / dec 2 1 ^ S n).
        { intros n. rewrite Hwab. cbn [Qcpower].
          assert (Hp := Qcpower_nonzero _ n dois_nao_nulo).
          field. split; [exact Hp | apply dois_nao_nulo]. }
        exists e, d, (S k). split; [exact Hb|]. split; [lia|].
        split; [eapply Qcle_trans; eassumption|]. split; [exact Hed'|].
        split; [eapply Qcle_trans; eassumption|].
        split; [rewrite Hwid; apply Hshift|].
        split; [intros Hlt; apply Hstop; lia|].
        intros [|j] Hj.
        - rewrite div_potencia_zero. exact Hw.
        - rewrite <- Hshift. apply Hbig. lia. }
      destruct (ltb (ve * vm) 0).
      * apply Hstep; auto. apply Qcle_refl.
      * apply Hstep; auto; try apply Qcle_refl; qc_lra.
Qed.

End Bissecao.

(** X10. When the bisection loop of [calcular_tir], started from a bracket
    above -1, returns its final bracket, that bracket lies inside the initial
    one and its width is the initial width divided by [2^k], [k] being the
    number of halvings done; if the loop stopped before [max_iter] halvings,
    the width is below the tolerance. *)
Theorem bissecao_bracket
    (fluxos : list Qc) (tolerancia : Qc) (max_iter : nat)
    (esquerda direita e d : Qc) :
  - (1) < esquerda ->
  esquerda <= direita ->
  bissecao fluxos tolerancia max_iter esquerda direita = Ret (e, d) ->
  esquerda <= e /\ e <= d /\ d <= direita
  /\ exists k,
       (k <= max_iter)%nat
       /\ d - e = (direita - esquerda) / dec 2 1 ^ k
       /\ ((k < max_iter)%nat -> d - e < tolerancia).
Proof.
  intros He Hed Hret.
  destruct (bissecao_estreita fluxos tolerancia max_iter esquerda direita He Hed)
    as (e' & d' & k & H1 & H2 & H3 & H4 & H5 & H6 & H7 & _).
  rewrite Hret in H1. injection H1 as <- <-.
  split; [exact H3|]. split; [exact H4|]. split; [exact H5|].
  exists k. auto.
Qed.

Lemma bissecao_bracket_witness :
  exists e d,
    bissecao projeto_base tolerancia_padrao 5 (dec (-99) 100) 1 = Ret (e, d)
    /\ dec (-99) 100 <= e /\ e <= d /\ d <= 1
    /\ exists k,
         (k <= 5)%nat
         /\ d - e = (1 - dec (-99) 100) / dec 2 1 ^ k
         /\ ((k < 5)%nat -> d - e < tolerancia_padrao).
Proof.
  assert (H1 : - (1) < dec (-99) 100) by (vm_compute; reflexivity).
  assert (H2 : dec (-99) 100 <= 1) by (vm_compute; discriminate).
  destruct (bissecao projeto_base tolerancia_padrao 5 (dec (-99) 100) 1)
    as [[e d]|ex] eqn:E.
  - exists e, d. split; [reflexivity|].
    exact (bissecao_bracket projeto_base tolerancia_padrao 5
             (dec (-99) 100) 1 e d H1 H2 E).
  - exfalso. vm_compute in E. discriminate.
Defined.

(** X11. With the defaults ([max_iter = 1000], [tolerancia = 1e-6]), when the
    bisection loop of [calcular_tir] returns its final bracket, it has
    stopped by its width test after exactly 21 halvings of [[-0.99, 1]]: the
    bracket has width [1.99 / 2^21], below the tolerance, so the iteration
    budget is not what ended the loop. *)
Theorem bissecao_padrao_21 (fluxos : list Qc) (e d : Qc) :
  bissecao fluxos tolerancia_padrao max_iter_padrao (dec (-99) 100) 1
  = Ret (e, d) ->
  dec (-99) 100 <= e /\ e <= d /\ d <= 1
  /\ d - e = dec 199 100 / dec 2 1 ^ 21
  /\ d - e < tolerancia_padrao.
Proof.
  intros Hret.
  destruct (bissecao_estreita fluxos tolerancia_padrao max_iter_padrao
              (dec (-99) 100) 1)
    as (e' & d' & k & Hb & Hk & Hle & Hed & Hd1 & Hwid & Hstop & Hbig);
    [vm_compute; reflexivity | vm_compute; discriminate|].
  rewrite Hret in Hb. injection Hb as <- <-.
  split; [exact Hle|]. split; [exact Hed|]. split; [exact Hd1|].
  assert (Ek : k = 21%nat).
  { destruct (le_lt_dec k 21) as [Hk21|Hk21].
    - assert (Hlt : (k < max_iter_padrao)%nat)
        by (unfold max_iter_padrao; lia).
      specialize (Hstop Hlt). rewrite Hwid in Hstop.
      do 21 (destruct k as [|k];
             [exfalso; vm_compute in Hstop; discriminate|]).
      destruct k as [|k]; [reflexivity | lia].
    - exfalso. specialize (Hbig 21%nat Hk21).
      vm_compute in Hbig. apply Hbig. reflexivity. }
  subst k. split.
  - rewrite Hwid. qc_eval.
  - rewrite Hwid. vm_compute. reflexivity.
Qed.

Lemma bissecao_padrao_21_witness :
  exists e d,
    bissecao projeto_base tolerancia_padrao max_iter_padrao (dec (-99) 100) 1
    = Ret (e, d)
    /\ dec (-99) 100 <= e /\ e <= d /\ d <= 1
    /\ d - e = dec 199 100 / dec 2 1 ^ 21
    /\ d - e < tolerancia_padrao.
Proof.
  destruct (bissecao projeto_base tolerancia_padrao max_iter_padrao
              (dec (-99) 100) 1) as [[e d]|ex] eqn:E.
  - exists e, d. split; [reflexivity|].
    exact (bissecao_padrao_21 projeto_base e d E).
  - exfalso. vm_compute in E. discriminate.
Defined.

(** X12. A number that [calcular_tir] returns after its Newton loop fell
    through (by [break] or by exhausting [max_iter]) comes from the bracket
    [[-0.99, 1]]: it lies between -99 and 100 (percent). *)
Theorem calcular_tir_fallback_range
    (fluxos : list Qc) (max_iter : nat) (tolerancia r : Qc) :
  newton fluxos tolerancia max_iter (dec 1 10) = Ret FallThrough ->
  calcular_tir fluxos max_iter tolerancia = Ret (Some r) ->
  dec (-99) 1 <= r /\ r <= dec 100 1.
Proof.
  intros Hn. unfold calcular_tir, calcular_tir_corpo.
  destruct (mesmo_sinal fluxos); [discriminate|].
  rewrite Hn. cbn [bind].
  destruct (bissecao_estreita fluxos tolerancia max_iter (dec (-99) 100) 1)
    as (e & d & k & Hb & _ & Hle & Hed & Hd1 & _);
    [vm_compute; reflexivity | vm_compute; discriminate|].
  rewrite Hb. cbn [bind].
  destruct (vpl fluxos ((e + d) / dec 2 1)) as [vf|ex]; [|discriminate].
  cbn [bind]. destruct (ltb [vf] tolerancia); [|discriminate].
  intros [= <-].
  destruct (metade e d Hed) as (Hem & Hmd & _ & _).
  set (meio := (e + d) / dec 2 1) in *.
  split; to_Q; lra.
Qed.

Lemma calcular_tir_fallback_range_witness :
  exists r,
    newton [dec 5 100; dec (-2) 10; dec 11 100] tolerancia_padrao
      max_iter_padrao (dec 1 10) = Ret FallThrough
    /\ calcular_tir [dec 5 100; dec (-2) 10; dec 11 100]
         max_iter_padrao tolerancia_padrao = Ret (Some r)
    /\ dec (-99) 1 <= r /\ r <= dec 100 1.
Proof.
  assert (Hn : newton [dec 5 100; dec (-2) 10; dec 11 100] tolerancia_padrao
                 max_iter_padrao (dec 1 10) = Ret FallThrough)
    by (vm_compute; reflexivity).
  destruct (calcular_tir [dec 5 100; dec (-2) 10; dec 11 100]
              max_iter_padrao tolerancia_padrao) as [[r|]|e] eqn:E.
  - exists r. split; [exact Hn|]. split; [reflexivity|].
    exact (calcular_tir_fallback_range _ _ _ r Hn E).
  - exfalso. vm_compute in E. discriminate.
  - exfalso. vm_compute in E. discriminate.
Defined.

(** ** [calcular_tir]: a series whose later flows are all zero *)

Lemma sum_descontados_nulos (tma : Qc) (l : list Qc) (k : nat) :
  Forall (fun f => f = 0) l ->
  sum (fluxos_descontados tma (enumerate_from k l)) = 0.
Proof.
  intros H. revert k. induction H as [|f l Hf _ IH]; intros k.
  - reflexivity.
  - cbn [enumerate_from fluxos_descontados map]. rewrite sum_cons.
    change (map _ (enumerate_from (S k) l))
      with (fluxos_descontados tma (enumerate_from (S k) l)).
    rewrite IH, Hf. unfold Qcdiv. ring.
Qed.

Lemma vpl_fluxos_nulos (f0 : Qc) (rest : list Qc) (taxa : Qc) :
  Forall (fun f => f = 0) rest ->
  1 + taxa <> 0 ->
  vpl (f0 :: rest) taxa = Ret f0.
Proof.
  intros Hz Hnz. rewrite vpl_calcular_vpl, calcular_vpl_sum by exact Hnz.
  unfold enumerate. cbn [enumerate_from fluxos_descontados map].
  rewrite sum_cons.
  change (map _ (enumerate_from 1 rest))
    with (fluxos_descontados taxa (enumerate_from 1 rest)).
  rewrite sum_descontados_nulos by exact Hz.
  rewrite div_potencia_zero. f_equal. ring.
Qed.

Lemma filter_enumerate_from_S {A : Type} (l : list A) (k : nat) :
  filter (fun '(t, _) => Nat.ltb 0 t) (enumerate_from (S k) l)
  = enumerate_from (S k) l.
Proof.
  revert k. induction l as [|x l IH]; intros k.
  - reflexivity.
  - cbn [enumerate_from filter Nat.ltb Nat.leb]. rewrite IH. reflexivity.
Qed.

Lemma derivada_termos_nulos (taxa : Qc) (l : list Qc) (k : nat) :
  Forall (fun f => f = 0) l ->
  1 + taxa <> 0 ->
  exists termos,
    comprehension
      (fun '(t, f) => div (- of_nat t * f) ((1 + taxa) ^ (t + 1)))
      (enumerate_from k l) = Ret termos
    /\ sum termos = 0.
Proof.
  intros H Hnz. revert k. induction H as [|f l Hf _ IH]; intros k.
  - exists []. split; reflexivity.
  - destruct (IH (S k)) as (termos & Ht & Hs).
    cbn [enumerate_from comprehension].
    rewrite div_ok by (apply Qcpower_nonzero, Hnz). cbn [bind].
    rewrite Ht. cbn [bind]. eexists. split; [reflexivity|].
    rewrite sum_cons, Hs, Hf. unfold Qcdiv. ring.
Qed.

Lemma vpl_derivada_fluxos_nulos (f0 : Qc) (rest : list Qc) (taxa : Qc) :
  Forall (fun f => f = 0) rest ->
  1 + taxa <> 0 ->
  vpl_derivada (f0 :: rest) taxa = Ret 0.
Proof.
  intros Hz Hnz. unfold vpl_derivada, enumerate.
  cbn [enumerate_from filter Nat.ltb Nat.leb].
  rewrite filter_enumerate_from_S.
  destruct (derivada_termos_nulos taxa rest 1 Hz Hnz) as (termos & Ht & Hs).
  rewrite Ht. cbn [bind]. rewrite Hs. reflexivity.
Qed.

(** X14. A series whose flows after the first are all zero has no TIR: when
    the first flow is at least the tolerance in absolute value, whatever
    [calcular_tir] returns is [None], for every [max_iter] (the derivative is
    zero, so the Newton loop is left at once, and the value at the
    bisection's candidate is the first flow). *)
Theorem calcular_tir_fluxos_nulos
    (f0 : Qc) (rest : list Qc) (max_iter : nat) (tolerancia : Qc)
    (r : option Qc) :
  Forall (fun f => f = 0) rest ->
  tolerancia <= [f0] ->
  calcular_tir (f0 :: rest) max_iter tolerancia = Ret r ->
  r = None.
Proof.
  intros Hz Htol. unfold calcular_tir, calcular_tir_corpo.
  destruct (mesmo_sinal (f0 :: rest)); [congruence|].
  assert (Hno : ltb [f0] tolerancia = false) by (apply ltb_ge, Htol).
  assert (Hnew : newton (f0 :: rest) tolerancia max_iter (dec 1 10)
                 = Ret FallThrough).
  { destruct max_iter as [|iter]; [reflexivity|]. cbn [newton].
    assert (Hnz : 1 + dec 1 10 <> 0) by (vm_compute; discriminate).
    rewrite (vpl_fluxos_nulos f0 rest _ Hz Hnz). cbn [bind]. rewrite Hno.
    rewrite (vpl_derivada_fluxos_nulos f0 rest _ Hz Hnz). reflexivity. }
  rewrite Hnew. cbn [bind].
  destruct (bissecao_estreita (f0 :: rest) tolerancia max_iter (dec (-99) 100) 1)
    as (e & d & k & Hb & _ & Hle & Hed & _);
    [vm_compute; reflexivity | vm_compute; discriminate|].
  rewrite Hb. cbn [bind].
  destruct (metade e d Hed) as (Hem & _).
  rewrite (vpl_fluxos_nulos f0 rest _ Hz).
  - cbn [bind]. rewrite Hno. congruence.
  - set (meio := (e + d) / dec 2 1) in *. qc_lra.
Qed.

Lemma calcular_tir_fluxos_nulos_witness :
  Forall (fun f => f = 0) [0; 0; 0]
  /\ tolerancia_padrao <= [dec (-100) 1]
  /\ exists r,
       calcular_tir [dec (-100) 1; 0; 0; 0] max_iter_padrao tolerancia_padrao
       = Ret r
       /\ r = None.
Proof.
  assert (H1 : Forall (fun f : Qc => f = 0) [0; 0; 0])
    by (repeat constructor).
  assert (H2 : tolerancia_padrao <= [dec (-100) 1])
    by (vm_compute; discriminate).
  split; [exact H1|]. split; [exact H2|].
  destruct (calcular_tir [dec (-100) 1; 0; 0; 0]
              max_iter_padrao tolerancia_padrao) as [r|ex] eqn:E.
  - exists r. split; [reflexivity|].
    exact (calcular_tir_fluxos_nulos (dec (-100) 1) [0; 0; 0]
             max_iter_padrao tolerancia_padrao r H1 H2 E).
  - exfalso. vm_compute in E. discriminate.
Defined.

(** ** The script: the TIR message and the VPL *)





(** ** The script: the sensitivity analyses *)


Lemma sum_descontados_escala (tma c : Qc) (l : list Qc) (k : nat) :
  sum (fluxos_descontados tma (enumerate_from k (map (fun f => f * c) l)))
  = c * sum (fluxos_descontados tma (enumerate_from k l)).
Proof.
  revert k. induction l as [|f l IH]; intros k.
  - cbn. ring.
  - cbn [map enumerate_from fluxos_descontados]. rewrite !sum_cons.
    change (map _ (enumerate_from (S k) (map (fun f => f * c) l)))
      with (fluxos_descontados tma
              (enumerate_from (S k) (map (fun f => f * c) l))).
    change (map _ (enumerate_from (S k) l))
      with (fluxos_descontados tma (enumerate_from (S k) l)).
    rewrite IH. unfold Qcdiv. ring.
Qed.

Lemma calcular_vpl_variados
    (investimento_inicial tma_base : Qc) (fluxos : list Qc) (v : Qc) :
  1 + tma_base <> 0 ->
  exists base,
    vpl_base investimento_inicial tma_base fluxos = Ret base
    /\ calcular_vpl (fluxos_variados investimento_inicial fluxos v) tma_base
       = Ret (investimento_inicial + (1 + v) * (base - investimento_inicial)).
Proof.
  intros Hnz. unfold vpl_base. eexists.
  split; [apply calcular_vpl_sum, Hnz|].
  rewrite calcular_vpl_sum by exact Hnz. f_equal.
  unfold fluxos_variados, fluxos_com_investimento, enumerate.
  cbn [app nth enumerate_from fluxos_descontados map]. rewrite !sum_cons.
  change (map _ (enumerate_from 1 (map (fun f => f * (1 + v)) fluxos)))
    with (fluxos_descontados tma_base
            (enumerate_from 1 (map (fun f => f * (1 + v)) fluxos))).
  change (map (fun '(t, fc) => fc / (1 + tma_base) ^ t)
            (enumerate_from 1 fluxos))
    with (fluxos_descontados tma_base (enumerate_from 1 fluxos)).
  rewrite sum_descontados_escala, div_potencia_zero. ring.
Qed.

(** X16. Away from the rate -1, the VPL of the flow sensitivity is the
    initial investment plus the discounted yearly flows scaled by
    [1 + variacao/100]: [vpl_var = investimento + (1 + variacao/100) *
    (vpl_base - investimento)]; at [variacao = 0] it is [vpl_base]. *)
Theorem vpl_var_affine
    (investimento_inicial tma_base : Qc) (fluxos : list Qc) (variacao : Z) :
  tma_base <> - (1) ->
  exists base,
    vpl_base investimento_inicial tma_base fluxos = Ret base
    /\ vpl_var investimento_inicial tma_base fluxos variacao
       = Ret (investimento_inicial
              + (1 + dec variacao 100) * (base - investimento_inicial))
    /\ vpl_var investimento_inicial tma_base fluxos 0 = Ret base.
Proof.
  intros Hr. assert (Hnz := taxa_nao_menos_um tma_base Hr).
  destruct (calcular_vpl_variados investimento_inicial tma_base fluxos
              (dec variacao 100) Hnz) as (base & Hb & Hv).
  destruct (calcular_vpl_variados investimento_inicial tma_base fluxos
              (dec 0 100) Hnz) as (base0 & Hb0 & Hv0).
  rewrite Hb in Hb0. injection Hb0 as <-.
  exists base. split; [exact Hb|]. split; [exact Hv|].
  unfold vpl_var. rewrite Hv0. f_equal.
  replace (dec 0 100) with 0 by qc_eval. ring.
Qed.

Lemma vpl_var_affine_witness :
  dec 1 10 <> - (1)
  /\ exists base,
       vpl_base (dec (-100) 1) (dec 1 10) [dec 60 1; dec 60 1; dec 60 1]
       = Ret base
       /\ vpl_var (dec (-100) 1) (dec 1 10) [dec 60 1; dec 60 1; dec 60 1] 25
          = Ret (dec (-100) 1 + (1 + dec 25 100) * (base - dec (-100) 1))
       /\ vpl_var (dec (-100) 1) (dec 1 10) [dec 60 1; dec 60 1; dec 60 1] 0
          = Ret base.
Proof.
  assert (H : dec 1 10 <> - (1)) by (vm_compute; discriminate).
  split; [exact H|].
  exact (vpl_var_affine (dec (-100) 1) (dec 1 10)
           [dec 60 1; dec 60 1; dec 60 1] 25 H).
Defined.





(** ** [calcular_payback_descontado] as a function of the rate *)


Section PaybackTaxa.

Variables (f0 : Qc) (rest : list Qc) (r1 r2 : Qc).
Hypothesis Hpos : Forall (fun f => 0 < f) rest.
Hypothesis Hr1 : - (1) < r1.
Hypothesis Hr12 : r1 <= r2.





End PaybackTaxa.



(** ** [calcular_tir]: when the sign check fires *)

Lemma sinais_limites (l : list Qc) :
  (- Z.of_nat (length l) <= sum_int (sinais l) <= Z.of_nat (length l))%Z.
Proof.
  induction l as [|f l IH].
  - cbn. lia.
  - unfold sinais in *. cbn [map length]. rewrite sum_int_cons.
    destruct (geb f 0); lia.
Qed.

Lemma sinais_todos_positivos (l : list Qc) :
  sum_int (sinais l) = Z.of_nat (length l) -> Forall (fun f => 0 <= f) l.
Proof.
  induction l as [|f l IH]; intros H.
  - constructor.
  - assert (Hb := sinais_limites l).
    unfold sinais in *. cbn [map length] in H. rewrite sum_int_cons in H.
    destruct (geb f 0) eqn:G; [|lia].
    constructor; [apply geb_ge, G | apply IH; lia].
Qed.

Lemma sinais_todos_negativos (l : list Qc) :
  sum_int (sinais l) = (- Z.of_nat (length l))%Z -> Forall (fun f => f < 0) l.
Proof.
  induction l as [|f l IH]; intros H.
  - constructor.
  - assert (Hb := sinais_limites l).
    unfold sinais in *. cbn [map length] in H. rewrite sum_int_cons in H.
    destruct (geb f 0) eqn:G; [lia|].
    constructor; [apply geb_lt, G | apply IH; lia].
Qed.

(** X20. The sign check of [calcular_tir] fires exactly when every entry is
    non-negative or every entry is strictly negative; so the numerical phases
    are entered exactly when the series has a strictly negative entry and a
    non-negative one. *)
Theorem mesmo_sinal_iff (fluxos : list Qc) :
  mesmo_sinal fluxos = true
  <-> Forall (fun f => 0 <= f) fluxos \/ Forall (fun f => f < 0) fluxos.
Proof.
  unfold mesmo_sinal. rewrite orb_true_iff, !Z.eqb_eq. split.
  - intros [H|H].
    + left. apply sinais_todos_positivos, H.
    + right. apply sinais_todos_negativos, H.
  - intros [H|H].
    + left. apply sinais_nao_negativos, H.
    + right. apply sinais_negativos, H.
Qed.

(** ** [calcular_payback_descontado]: flows after the recovery *)

Lemma payback_laco_app (tma acumulado : Qc) (l1 l2 : list Qc) (k : nat) (v : Qc) :
  payback_laco tma acumulado (enumerate_from k l1) = Ret (Some v) ->
  payback_laco tma acumulado (enumerate_from k (l1 ++ l2)) = Ret (Some v).
Proof.
  revert k acumulado. induction l1 as [|fc l1 IH]; intros k acumulado.
  - discriminate.
  - cbn [app enumerate_from payback_laco].
    destruct (div fc ((1 + tma) ^ k)) as [fluxo_desc|e]; [|discriminate].
    cbn [bind]. destruct (geb (acumulado + fluxo_desc) 0); [auto | apply IH].
Qed.

(** X21. Once [calcular_payback_descontado] returns a number for a series,
    it returns the same number for every longer series that starts with it,
    at every rate: flows after the recovery are not read. *)
Theorem calcular_payback_descontado_app
    (flows more : list Qc) (rate v : Qc) :
  calcular_payback_descontado flows rate = Ret (Some v) ->
  calcular_payback_descontado (flows ++ more) rate = Ret (Some v).
Proof.
  unfold calcular_payback_descontado, enumerate. apply payback_laco_app.
Qed.

Lemma calcular_payback_descontado_app_witness :
  calcular_payback_descontado [dec (-100) 1; dec 60 1; dec 60 1] (dec 1 10)
  = Ret (Some (dec 23 12))
  /\ calcular_payback_descontado
       ([dec (-100) 1; dec 60 1; dec 60 1] ++ [dec 60 1]) (dec 1 10)
     = Ret (Some (dec 23 12)).
Proof.
  assert (H : calcular_payback_descontado
                [dec (-100) 1; dec 60 1; dec 60 1] (dec 1 10)
              = Ret (Some (dec 23 12)))
    by (apply ret_some_eval; vm_compute; reflexivity).
  split; [exact H|].
  exact (calcular_payback_descontado_app
           [dec (-100) 1; dec 60 1; dec 60 1] [dec 60 1]
           (dec 1 10) (dec 23 12) H).
Defined.
